(** * spaCy NLP API (main.py): the request handlers over an abstract pipeline

    The service wraps a loaded spaCy pipeline (the module global [nlp]) in five
    POST handlers.  The pipeline is third-party code: it is taken here as an
    interface, [Language], whose operations are the attributes and methods the
    handlers read; calling it on a text gives a document or an exception of
    its own.  The handlers run in the process: they are embedded as
    computations over the process state (the module globals and the
    interpreter's surroundings) that end in a value or in an exception.  List
    comprehensions become [map], the dict literals become records with the
    same keys. *)

From Stdlib Require Import String Ascii ZArith List Lia Bool Arith.
From Stdlib Require Import Floats.SpecFloat.
Import ListNotations.

Open Scope string_scope.

(** ** Python values *)

(** A Python [float] is an IEEE 754 binary64 value. *)
Definition float : Type := spec_float.

(** The exceptions the module raises or meets.  [EngineError cls msg] is an
    exception raised inside the pipeline, of class [cls] with message [msg]
    (spaCy's [ValueError] E088 for a text longer than [nlp.max_length], for
    one); it is never an [HTTPException]. *)
Inductive exception : Type :=
| HTTPException (status_code : Z) (detail : string)
| RuntimeError (msg : string)
| OSError
| IndexError
| EngineError (cls msg : string).

(** What running a piece of Python gives: a value, or a raised exception. *)
Inductive outcome (A : Type) : Type :=
| Return (a : A)
| Raise (e : exception).

Arguments Return {A} a.
Arguments Raise {A} e.

(** What calling the pipeline on a text gives: the processed document, or an
    exception of the pipeline's own. *)
Inductive called (D : Type) : Type :=
| Processed (doc : D)
| Failed (cls msg : string).

Arguments Processed {D} doc.
Arguments Failed {D} cls msg.

(** [len(s)] of a str, as a Python int. *)
Definition len (s : string) : Z := Z.of_nat (String.length s).

(** [s[i:j]] for [0 <= i <= j]: the characters at positions [i, j). *)
Definition slice (s : string) (i j : Z) : string :=
  substring (Z.to_nat i) (Z.to_nat (j - i)) s.

(** [s] occurs in [t] as a contiguous run of characters. *)
Definition contiguous_substring (s t : string) : Prop :=
  exists pre post : string, t = pre ++ s ++ post.

(** ** Request and response models (the pydantic classes) *)

Module TextRequest.
Record t : Type := mk { text : string }.
End TextRequest.

Module TextsRequest.
Record t : Type := mk { texts : list string }.
End TextsRequest.

Module Entity.
Record t : Type := mk { text : string; label : string; start : Z; end_ : Z }.
End Entity.

Module Token.
Record t : Type :=
  mk { text : string; pos : string; tag : string; dep : string; lemma : string }.
End Token.

Module NERResponse.
Record t : Type := mk { entities : list Entity.t }.
End NERResponse.

Module POSResponse.
Record t : Type := mk { tokens : list Token.t }.
End POSResponse.

Module SimilarityResponse.
Record t : Type := mk { similarity : float }.
End SimilarityResponse.

(** The dict literal returned by [basic_analysis]. *)
Module Analysis.
Record t : Type :=
  mk { tokens : list string; lemmas : list string;
       sentences : list string; noun_phrases : list string }.
End Analysis.

(** One dict of the list built by [dependency_parse]. *)
Module DependencyRecord.
Record t : Type :=
  mk { token : string; dep : string; head : string; children : list string }.
End DependencyRecord.

(** The dict literal returned by [dependency_parse]. *)
Module DependencyResponse.
Record t : Type := mk { dependencies : list DependencyRecord.t }.
End DependencyResponse.

(** ** The pipeline interface

    What the handlers use of spaCy: calling the pipeline on a text, iterating
    a [Doc], the span iterators of a [Doc], and the attributes of tokens and
    spans.  [SpacyToken] is spaCy's token class ([Token] above is the response
    model of the same name).  The attributes below the line are not read by
    the handlers; spaCy documents them and the pipeline guarantees are stated
    with them. *)
Class Language : Type := {
  Doc : Type;
  SpacyToken : Type;
  Span : Type;
  Number : Type;
  (** [nlp(text)]: a document, or an exception raised inside the pipeline *)
  call : string -> called Doc;
  (** [for token in doc] *)
  Doc_iter : Doc -> list SpacyToken;
  ents : Doc -> list Span;
  sents : Doc -> list Span;
  noun_chunks : Doc -> list Span;
  (** [doc1.similarity(doc2)] and [float(...)] of its result *)
  similarity : Doc -> Doc -> Number;
  to_float : Number -> float;
  (** token attributes *)
  Token_text : SpacyToken -> string;
  pos_ : SpacyToken -> string;
  tag_ : SpacyToken -> string;
  dep_ : SpacyToken -> string;
  lemma_ : SpacyToken -> string;
  head : SpacyToken -> SpacyToken;
  children : SpacyToken -> list SpacyToken;
  (** span attributes; [Span_str] is [str(span)] *)
  Span_text : Span -> string;
  Span_str : Span -> string;
  label_ : Span -> string;
  start_char : Span -> Z;
  end_char : Span -> Z;
  (* ------------------------------------------------------------------ *)
  (** [token.i], the position of the token in its document; [token.idx],
      the character offset of the token in the document's text; [span.start]
      and [span.end], the token positions a span covers *)
  Token_i : SpacyToken -> nat;
  Token_idx : SpacyToken -> Z;
  Span_start : Span -> Z;
  Span_end : Span -> Z
}.

(** ** The process and its computations *)

(** The interpreter's surroundings: the pipeline packages that are installed,
    and the names [spacy.load] has been called with so far. *)
Record World : Type :=
  { installed : string -> option Language; load_calls : list string }.

(** The module globals the handlers read. *)
Module Globals.
Record t : Type := mk { nlp : Language }.
End Globals.

(** The state of the running process. *)
Definition Process : Type := (Globals.t * World)%type.

Definition running (nlp : Language) (w : World) : Process := (Globals.mk nlp, w).

(** A computation of the process: from a state, an outcome and the state it
    leaves; what was done before a [raise] stays done. *)
Definition M (A : Type) : Type := Process -> outcome A * Process.

Definition ret {A : Type} (a : A) : M A := fun st => (Return a, st).

Definition raise {A : Type} (e : exception) : M A := fun st => (Raise e, st).

Definition bind {A B : Type} (m : M A) (k : A -> M B) : M B :=
  fun st =>
    match m st with
    | (Return a, st') => k a st'
    | (Raise e, st') => (Raise e, st')
    end.

Notation "x <- m ;; k" := (bind m (fun x => k))
  (at level 61, m at next level, right associativity).

(** Reading the global [nlp]. *)
Definition global_nlp : M Language :=
  fun st => (Return (Globals.nlp (fst st)), st).

(** [nlp(text)]: the document, or the pipeline's exception, which nothing in
    the module catches. *)
Definition call_pipeline (nlp : Language) (text : string) : M (@Doc nlp) :=
  fun st =>
    (match @call nlp text with
     | Processed doc => Return doc
     | Failed cls msg => Raise (EngineError cls msg)
     end, st).

(** [l[i]] for a non-negative literal index: [IndexError] out of range. *)
Definition getitem {A : Type} (l : list A) (i : nat) : M A :=
  match nth_error l i with
  | Some a => ret a
  | None => raise IndexError
  end.

(** ** The handlers *)

Definition named_entity_recognition (request : TextRequest.t)
  : M NERResponse.t :=
  nlp <- global_nlp ;;
  doc <- call_pipeline nlp (TextRequest.text request) ;;
  let entities :=
    map (fun ent =>
           Entity.mk (Span_text ent) (label_ ent) (start_char ent) (end_char ent))
        (ents doc) in
  ret (NERResponse.mk entities).

Definition parts_of_speech (request : TextRequest.t) : M POSResponse.t :=
  nlp <- global_nlp ;;
  doc <- call_pipeline nlp (TextRequest.text request) ;;
  let tokens :=
    map (fun token =>
           Token.mk (Token_text token) (pos_ token) (tag_ token) (dep_ token)
                    (lemma_ token))
        (Doc_iter doc) in
  ret (POSResponse.mk tokens).

Definition similarity_detail : string :=
  "Exactly two texts must be provided for similarity comparison".

Definition text_similarity (request : TextsRequest.t)
  : M SimilarityResponse.t :=
  if negb (length (TextsRequest.texts request) =? 2)%nat then
    raise (HTTPException 400 similarity_detail)
  else
    nlp <- global_nlp ;;
    text0 <- getitem (TextsRequest.texts request) 0 ;;
    doc1 <- call_pipeline nlp text0 ;;
    text1 <- getitem (TextsRequest.texts request) 1 ;;
    doc2 <- call_pipeline nlp text1 ;;
    let similarity := similarity doc1 doc2 in
    ret (SimilarityResponse.mk (to_float similarity)).

Definition basic_analysis (request : TextRequest.t) : M Analysis.t :=
  nlp <- global_nlp ;;
  doc <- call_pipeline nlp (TextRequest.text request) ;;
  let analysis :=
    Analysis.mk (map Token_text (Doc_iter doc))
                (map lemma_ (Doc_iter doc))
                (map Span_str (sents doc))
                (map Span_text (noun_chunks doc)) in
  ret analysis.

Definition dependency_parse (request : TextRequest.t)
  : M DependencyResponse.t :=
  nlp <- global_nlp ;;
  doc <- call_pipeline nlp (TextRequest.text request) ;;
  let deps :=
    map (fun token =>
           DependencyRecord.mk (Token_text token) (dep_ token)
                               (Token_text (head token))
                               (map Token_text (children token)))
        (Doc_iter doc) in
  ret (DependencyResponse.mk deps).

(** ** What spaCy documents of a processed document

    The handlers copy attributes; what those attributes mean is the
    pipeline's business.  [well_formed_doc text d] collects, as one decidable
    check of the document [d] obtained for [text], the layout spaCy documents:
    - tokens are numbered by position ([token.i]);
    - tokenisation is non-destructive: a token is a non-empty run of [text]
      starting at [token.idx], and tokens follow one another without overlap;
    - a span (entity, sentence, noun chunk) covers the tokens
      [span.start .. span.end - 1], at least one; [start_char] is the offset
      of its first token, [end_char] the end of its last, and its text is
      that stretch of [text];
    - [token.head] is a token of the same document;
    - every token lies in exactly one sentence and every sentence has exactly
      one root, a token that is its own head. *)

Section Contract.

Context {nlp : Language}.

Definition token_anchored (text : string) (t : SpacyToken) : bool :=
  (0 <=? Token_idx t)%Z
  && (1 <=? len (Token_text t))%Z
  && (Token_idx t + len (Token_text t) <=? len text)%Z
  && (slice text (Token_idx t) (Token_idx t + len (Token_text t))
      =? Token_text t)%string.

Fixpoint tokens_numbered (k : nat) (toks : list SpacyToken) : bool :=
  match toks with
  | [] => true
  | t :: rest => (Token_i t =? k)%nat && tokens_numbered (S k) rest
  end.

Fixpoint tokens_in_order (from : Z) (toks : list SpacyToken) : bool :=
  match toks with
  | [] => true
  | t :: rest =>
      (from <=? Token_idx t)%Z
      && tokens_in_order (Token_idx t + len (Token_text t)) rest
  end.

(** [doc[k]] for a token position [k]. *)
Definition token_at (d : Doc) (k : Z) : option SpacyToken :=
  if (k <? 0)%Z then None else nth_error (Doc_iter d) (Z.to_nat k).

Definition span_well_formed (text : string) (d : Doc) (s : Span) : bool :=
  match token_at d (Span_start s), token_at d (Span_end s - 1) with
  | Some first, Some last =>
      (Span_start s <? Span_end s)%Z
      && (start_char s =? Token_idx first)%Z
      && (end_char s =? Token_idx last + len (Token_text last))%Z
      && (Span_text s =? slice text (start_char s) (end_char s))%string
  | _, _ => false
  end.

(** A root is its own head. *)
Definition is_root (t : SpacyToken) : bool :=
  (Token_i (head t) =? Token_i t)%nat.

Definition head_in_doc (d : Doc) (t : SpacyToken) : bool :=
  match nth_error (Doc_iter d) (Token_i (head t)) with
  | Some h => (Token_text h =? Token_text (head t))%string
  | None => false
  end.

Definition in_span (s : Span) (t : SpacyToken) : bool :=
  (Span_start s <=? Z.of_nat (Token_i t))%Z
  && (Z.of_nat (Token_i t) <? Span_end s)%Z.

Definition one_root_in (d : Doc) (s : Span) : bool :=
  (length (filter (fun t => in_span s t && is_root t) (Doc_iter d)) =? 1)%nat.

Definition in_one_sentence (d : Doc) (t : SpacyToken) : bool :=
  (length (filter (fun s => in_span s t) (sents d)) =? 1)%nat.

Definition well_formed_doc (text : string) (d : Doc) : bool :=
  let toks := Doc_iter d in
  tokens_numbered 0 toks
  && forallb (token_anchored text) toks
  && tokens_in_order 0 toks
  && forallb (span_well_formed text d) (ents d ++ sents d ++ noun_chunks d)
  && forallb (head_in_doc d) toks
  && forallb (one_root_in d) (sents d)
  && forallb (in_one_sentence d) toks.

(** The head of a token has the same surface text as the token itself. *)
Definition same_text_as_head (t : SpacyToken) : bool :=
  (Token_text (head t) =? Token_text t)%string.

End Contract.

(** A record of [dependency_parse] whose [head] equals its own [token]. *)
Definition self_headed (r : DependencyRecord.t) : bool :=
  (DependencyRecord.head r =? DependencyRecord.token r)%string.

(** The response lists exactly one such record. *)
Definition one_self_headed_record (resp : DependencyResponse.t) : Prop :=
  length (filter self_headed (DependencyResponse.dependencies resp)) = 1.

(** ** Module initialisation and the serving process *)

Definition model_name : string := "en_core_web_sm".

Definition model_not_found : string :=
  "Spacy model 'en_core_web_sm' not found. Please install it by running: python -m spacy download en_core_web_sm".

(** [spacy.load(name)]: [OSError] when no such package is installed. *)
Definition spacy_load (name : string) (w : World)
  : outcome Language * World :=
  let w' := {| installed := installed w;
               load_calls := load_calls w ++ [name] |} in
  match installed w name with
  | Some pipeline => (Return pipeline, w')
  | None => (Raise OSError, w')
  end.

(** The module-level [try: nlp = spacy.load(...) except OSError: raise
    RuntimeError(...)]. *)
Definition load_model (w : World) : outcome Globals.t * World :=
  match spacy_load model_name w with
  | (Return pipeline, w') => (Return (Globals.mk pipeline), w')
  | (Raise OSError, w') => (Raise (RuntimeError model_not_found), w')
  | (Raise e, w') => (Raise e, w')
  end.

(** [spacy.load(name)] called while the process runs, as a handler that
    loaded a pipeline on every request would call it.  No handler of the
    module does. *)
Definition load_while_running (name : string) : M Language :=
  fun st =>
    let (loaded, w') := spacy_load name (snd st) in (loaded, (fst st, w')).

(** The five routes declared with [@app.post]. *)
Inductive Request : Type :=
| POST_ner (body : TextRequest.t)
| POST_pos (body : TextRequest.t)
| POST_similarity (body : TextsRequest.t)
| POST_basic_analysis (body : TextRequest.t)
| POST_dependency_parse (body : TextRequest.t).

Inductive Body : Type :=
| ner_body (r : NERResponse.t)
| pos_body (r : POSResponse.t)
| similarity_body (r : SimilarityResponse.t)
| analysis_body (r : Analysis.t)
| dependency_body (r : DependencyResponse.t).

Definition Response : Type := outcome Body.

Definition route (req : Request) : M Body :=
  match req with
  | POST_ner body =>
      r <- named_entity_recognition body ;; ret (ner_body r)
  | POST_pos body =>
      r <- parts_of_speech body ;; ret (pos_body r)
  | POST_similarity body =>
      r <- text_similarity body ;; ret (similarity_body r)
  | POST_basic_analysis body =>
      r <- basic_analysis body ;; ret (analysis_body r)
  | POST_dependency_parse body =>
      r <- dependency_parse body ;; ret (dependency_body r)
  end.

(** One request handled by the running process: the response, and the state
    the handler leaves. *)
Definition handle (req : Request) (st : Process) : Response * Process :=
  route req st.

(** The requests of a batch are handled one after the other, each in the
    state its predecessor left; an exception answers one request and the
    process serves on. *)
Fixpoint serve (reqs : list Request) (st : Process)
  : list Response * Process :=
  match reqs with
  | [] => ([], st)
  | req :: rest =>
      let (resp, st') := handle req st in
      let (resps, st'') := serve rest st' in
      (resp :: resps, st'')
  end.

(** A run of the process: the module is executed, then requests are served;
    an exception at module level ends the process before it serves. *)
Inductive Run : Type :=
| Crashed (e : exception) (w : World)
| Served (responses : list Response) (st : Process).

Definition run (w : World) (reqs : list Request) : Run :=
  match load_model w with
  | (Raise e, w') => Crashed e w'
  | (Return g, w') => let (resps, st) := serve reqs (g, w') in Served resps st
  end.

(** A response that is a body, the 400 of [text_similarity], or an exception
    of the pipeline. *)
Definition body_or_bad_request_or_engine (r : Response) : Prop :=
  (exists b, r = Return b)
  \/ r = Raise (HTTPException 400 similarity_detail)
  \/ (exists cls msg, r = Raise (EngineError cls msg)).

(** The pipeline fails on one of the texts of the request. *)
Definition engine_fails_on (nlp : Language) (req : Request)
  (cls msg : string) : Prop :=
  match req with
  | POST_ner body | POST_pos body | POST_basic_analysis body
  | POST_dependency_parse body =>
      @call nlp (TextRequest.text body) = Failed cls msg
  | POST_similarity body =>
      exists text, In text (TextsRequest.texts body)
                   /\ @call nlp text = Failed cls msg
  end.

(** ** A table-driven pipeline

    A concrete [Language] for running the handlers: documents are rows of a
    table keyed by their text, laid out as spaCy lays out a [Doc] (tokens with
    offsets and head positions, spans as token ranges).  A token is a document
    and a position, a span a document and a range. *)

Module Table.

Record TokenRow : Type :=
  { t_text : string; t_pos : string; t_tag : string; t_dep : string;
    t_lemma : string; t_idx : Z; t_head : nat }.

Record SpanRow : Type := { s_start : Z; s_end : Z; s_label : string }.

Record DocRow : Type :=
  { d_text : string; d_tokens : list TokenRow; d_ents : list SpanRow;
    d_sents : list SpanRow; d_chunks : list SpanRow }.

Definition no_token : TokenRow :=
  {| t_text := ""; t_pos := ""; t_tag := ""; t_dep := ""; t_lemma := "";
     t_idx := 0; t_head := 0 |}.

Definition row (tok : DocRow * nat) : TokenRow :=
  nth (snd tok) (d_tokens (fst tok)) no_token.

Definition tokens_of (d : DocRow) : list (DocRow * nat) :=
  map (fun k => (d, k)) (seq 0 (length (d_tokens d))).

Definition first_row (sp : DocRow * SpanRow) : TokenRow :=
  row (fst sp, Z.to_nat (s_start (snd sp))).

Definition last_row (sp : DocRow * SpanRow) : TokenRow :=
  row (fst sp, Z.to_nat (s_end (snd sp) - 1)).

Definition span_start_char (sp : DocRow * SpanRow) : Z := t_idx (first_row sp).

Definition span_end_char (sp : DocRow * SpanRow) : Z :=
  (t_idx (last_row sp) + len (t_text (last_row sp)))%Z.

Definition span_text (sp : DocRow * SpanRow) : string :=
  slice (d_text (fst sp)) (span_start_char sp) (span_end_char sp).

Definition blank (text : string) : DocRow :=
  {| d_text := text; d_tokens := []; d_ents := []; d_sents := [];
     d_chunks := [] |}.

Definition lookup (table : list DocRow) (text : string) : DocRow :=
  match find (fun d => (d_text d =? text)%string) table with
  | Some d => d
  | None => blank text
  end.

Definition one : float := S754_finite false 4503599627370496 (-52).

(** [nlp.max_length], and the test [len(text) > n] made without building the
    length. *)
Definition max_length : N := 1000000.

Fixpoint exceeds (text : string) (n : N) : bool :=
  match text with
  | EmptyString => false
  | String _ rest => if (n =? 0)%N then true else exceeds rest (N.pred n)
  end.

(** The message of spaCy's E088, cut short. *)
Definition too_long : string :=
  "[E088] Text exceeds maximum of 1000000".

Definition pipeline (table : list DocRow) : Language :=
  {| Doc := DocRow;
     SpacyToken := DocRow * nat;
     Span := DocRow * SpanRow;
     Number := float;
     call := fun text =>
       if exceeds text max_length then Failed "ValueError" too_long
       else Processed (lookup table text);
     Doc_iter := tokens_of;
     ents := fun d => map (pair d) (d_ents d);
     sents := fun d => map (pair d) (d_sents d);
     noun_chunks := fun d => map (pair d) (d_chunks d);
     similarity := fun d1 d2 =>
       if (d_text d1 =? d_text d2)%string then one else S754_zero false;
     to_float := fun x => x;
     Token_text := fun tok => t_text (row tok);
     pos_ := fun tok => t_pos (row tok);
     tag_ := fun tok => t_tag (row tok);
     dep_ := fun tok => t_dep (row tok);
     lemma_ := fun tok => t_lemma (row tok);
     head := fun tok => (fst tok, t_head (row tok));
     children := fun tok =>
       filter (fun c => negb (snd c =? snd tok)%nat
                        && (t_head (row c) =? snd tok)%nat)
              (tokens_of (fst tok));
     Span_text := span_text;
     Span_str := span_text;
     label_ := fun sp => s_label (snd sp);
     start_char := span_start_char;
     end_char := span_end_char;
     Token_i := snd;
     Token_idx := fun tok => t_idx (row tok);
     Span_start := fun sp => s_start (snd sp);
     Span_end := fun sp => s_end (snd sp) |}.

Definition apple_text : string := "Apple was founded in Cupertino.".

Definition apple_doc : DocRow :=
  {| d_text := apple_text;
     d_tokens :=
       [ {| t_text := "Apple"; t_pos := "PROPN"; t_tag := "NNP";
            t_dep := "nsubjpass"; t_lemma := "Apple"; t_idx := 0; t_head := 2 |};
         {| t_text := "was"; t_pos := "AUX"; t_tag := "VBD";
            t_dep := "auxpass"; t_lemma := "be"; t_idx := 6; t_head := 2 |};
         {| t_text := "founded"; t_pos := "VERB"; t_tag := "VBN";
            t_dep := "ROOT"; t_lemma := "found"; t_idx := 10; t_head := 2 |};
         {| t_text := "in"; t_pos := "ADP"; t_tag := "IN";
            t_dep := "prep"; t_lemma := "in"; t_idx := 18; t_head := 2 |};
         {| t_text := "Cupertino"; t_pos := "PROPN"; t_tag := "NNP";
            t_dep := "pobj"; t_lemma := "Cupertino"; t_idx := 21; t_head := 3 |};
         {| t_text := "."; t_pos := "PUNCT"; t_tag := ".";
            t_dep := "punct"; t_lemma := "."; t_idx := 30; t_head := 2 |} ];
     d_ents := [ {| s_start := 0; s_end := 1; s_label := "ORG" |};
                 {| s_start := 4; s_end := 5; s_label := "GPE" |} ];
     d_sents := [ {| s_start := 0; s_end := 6; s_label := "" |} ];
     d_chunks := [ {| s_start := 0; s_end := 1; s_label := "NP" |};
                   {| s_start := 4; s_end := 5; s_label := "NP" |} ] |}.

Definition police_text : string := "police police police".

(** One sentence of three tokens with the same surface text: whatever the
    parse, the head of each of them reads [police]. *)
Definition police_doc : DocRow :=
  {| d_text := police_text;
     d_tokens :=
       [ {| t_text := "police"; t_pos := "NOUN"; t_tag := "NNS";
            t_dep := "nsubj"; t_lemma := "police"; t_idx := 0; t_head := 1 |};
         {| t_text := "police"; t_pos := "VERB"; t_tag := "VBP";
            t_dep := "ROOT"; t_lemma := "police"; t_idx := 7; t_head := 1 |};
         {| t_text := "police"; t_pos := "NOUN"; t_tag := "NNS";
            t_dep := "dobj"; t_lemma := "police"; t_idx := 14; t_head := 1 |} ];
     d_ents := [];
     d_sents := [ {| s_start := 0; s_end := 3; s_label := "" |} ];
     d_chunks := [ {| s_start := 0; s_end := 1; s_label := "NP" |};
                   {| s_start := 2; s_end := 3; s_label := "NP" |} ] |}.

Definition en : Language := pipeline [apple_doc; police_doc].

(** A text of 1000001 characters. *)
Definition long_text : string := Pos.iter (String "a") "" 1000001%positive.

(** A site with no pipeline package, and one with the configured package. *)
Definition bare_world : World :=
  {| installed := fun _ => None; load_calls := [] |}.

Definition ready_world : World :=
  {| installed := fun name =>
       if (name =? model_name)%string then Some en else None;
     load_calls := [] |}.

End Table.

(** ** Shapes of a response

    Notions the properties of the responses are stated with. *)

(** The strings [parts] occur in [s] one after the other, left to right,
    without overlap. *)
Fixpoint occur_in_order (parts : list string) (s : string) : Prop :=
  match parts with
  | [] => True
  | p :: rest =>
      exists pre post, s = pre ++ p ++ post /\ occur_in_order rest post
  end.

(** The sum of the [len] of the strings of a list. *)
Definition total_len (l : list string) : Z :=
  fold_right (fun s n => (len s + n)%Z) 0%Z l.

(** A response that is an exception. *)

(** ** Strings *)

Lemma substring_prefix (m : nat) (s : string) :
  m <= String.length s -> exists post, s = substring 0 m s ++ post.
Proof.
  revert s; induction m as [|m IH]; intros s Hm.
  - exists s. destruct s; reflexivity.
  - destruct s as [|c s]; simpl in Hm; [lia|].
    destruct (IH s) as [post Hpost]; [lia|].
    exists post. simpl. now rewrite <- Hpost.
Qed.

Lemma substring_occurs (n m : nat) (s : string) :
  n + m <= String.length s -> contiguous_substring (substring n m s) s.
Proof.
  revert s; induction n as [|n IH]; intros s Hnm.
  - destruct (substring_prefix m s) as [post Hpost]; [lia|].
    exists "", post. exact Hpost.
  - destruct s as [|c s]; simpl in Hnm; [lia|].
    destruct (IH s) as (pre & post & Hs); [lia|].
    exists (String c pre), post. simpl. now rewrite <- Hs.
Qed.

Lemma slice_occurs (text : string) (i j : Z) :
  (0 <= i <= j)%Z -> (j <= len text)%Z ->
  contiguous_substring (slice text i j) text.
Proof.
  intros Hij Hj. unfold slice. apply substring_occurs.
  unfold len in Hj. lia.
Qed.

Lemma substring_of_empty (n m : nat) : substring n m "" = "".
Proof. destruct n, m; reflexivity. Qed.

(** ** The document layout, read off [well_formed_doc] *)

Section ContractFacts.

Context {nlp : Language}.

Lemma len_nonneg (s : string) : (0 <= len s)%Z.
Proof. unfold len. lia. Qed.

Lemma token_anchored_spec (text : string) (t : SpacyToken) :
  token_anchored text t = true ->
  (0 <= Token_idx t)%Z /\ (1 <= len (Token_text t))%Z
  /\ (Token_idx t + len (Token_text t) <= len text)%Z
  /\ slice text (Token_idx t) (Token_idx t + len (Token_text t)) = Token_text t.
Proof.
  unfold token_anchored. rewrite !andb_true_iff, !Z.leb_le, String.eqb_eq.
  tauto.
Qed.

Lemma tokens_numbered_nth (toks : list SpacyToken) :
  forall k j t, tokens_numbered k toks = true ->
    nth_error toks j = Some t -> Token_i t = k + j.
Proof.
  induction toks as [|a toks IH]; intros k j t Hn Hj.
  - destruct j; discriminate.
  - simpl in Hn. apply andb_true_iff in Hn as [Ha Hrest].
    apply Nat.eqb_eq in Ha.
    destruct j as [|j]; simpl in Hj.
    + injection Hj as <-. lia.
    + rewrite (IH (S k) j t Hrest Hj). lia.
Qed.

Lemma tokens_in_order_lower (toks : list SpacyToken) :
  forall from j t, tokens_in_order from toks = true ->
    nth_error toks j = Some t -> (from <= Token_idx t)%Z.
Proof.
  induction toks as [|a toks IH]; intros from j t Ho Hj.
  - destruct j; discriminate.
  - simpl in Ho. apply andb_true_iff in Ho as [Ha Hrest].
    apply Z.leb_le in Ha.
    destruct j as [|j]; simpl in Hj.
    + injection Hj as <-. exact Ha.
    + specialize (IH _ j t Hrest Hj). pose proof (len_nonneg (Token_text a)). lia.
Qed.

Lemma tokens_in_order_pair (toks : list SpacyToken) :
  forall from i j ti tj, tokens_in_order from toks = true ->
    i < j -> nth_error toks i = Some ti -> nth_error toks j = Some tj ->
    (Token_idx ti + len (Token_text ti) <= Token_idx tj)%Z.
Proof.
  induction toks as [|a toks IH]; intros from i j ti tj Ho Hij Hi Hj.
  - destruct i; discriminate.
  - simpl in Ho. apply andb_true_iff in Ho as [_ Hrest].
    destruct j as [|j]; [lia|]. simpl in Hj.
    destruct i as [|i]; simpl in Hi.
    + injection Hi as <-. exact (tokens_in_order_lower _ _ _ _ Hrest Hj).
    + apply (IH _ i j ti tj Hrest); [lia | assumption | assumption].
Qed.

(** The seven parts of the check, as propositions. *)
Lemma well_formed_doc_parts (text : string) (d : Doc) :
  well_formed_doc text d = true ->
  tokens_numbered 0 (Doc_iter d) = true
  /\ forallb (token_anchored text) (Doc_iter d) = true
  /\ tokens_in_order 0 (Doc_iter d) = true
  /\ forallb (span_well_formed text d) (ents d ++ sents d ++ noun_chunks d) = true
  /\ forallb (head_in_doc d) (Doc_iter d) = true
  /\ forallb (one_root_in d) (sents d) = true
  /\ forallb (in_one_sentence d) (Doc_iter d) = true.
Proof.
  unfold well_formed_doc. cbv zeta. rewrite !andb_true_iff. tauto.
Qed.

Lemma token_at_nth (d : Doc) (k : Z) (t : SpacyToken) :
  token_at d k = Some t ->
  (0 <= k)%Z /\ nth_error (Doc_iter d) (Z.to_nat k) = Some t.
Proof.
  unfold token_at. destruct (k <? 0)%Z eqn:Hk; [discriminate|].
  apply Z.ltb_ge in Hk. tauto.
Qed.

(** A well-formed span delimits its own text inside the document's text. *)
Lemma span_within_text (text : string) (d : Doc) (s : Span) :
  forallb (token_anchored text) (Doc_iter d) = true ->
  tokens_in_order 0 (Doc_iter d) = true ->
  span_well_formed text d s = true ->
  (0 <= start_char s <= end_char s)%Z /\ (end_char s <= len text)%Z
  /\ slice text (start_char s) (end_char s) = Span_text s.
Proof.
  intros Hanch Hord Hs. unfold span_well_formed in Hs.
  destruct (token_at d (Span_start s)) as [first|] eqn:Hfirst; [|discriminate].
  destruct (token_at d (Span_end s - 1)) as [last|] eqn:Hlast; [|discriminate].
  rewrite !andb_true_iff, Z.ltb_lt, !Z.eqb_eq, String.eqb_eq in Hs.
  destruct Hs as (((Hlt & Hsc) & Hec) & Htext).
  apply token_at_nth in Hfirst as [H0 Hfirst], Hlast as [H1 Hlast].
  rewrite forallb_forall in Hanch.
  pose proof (token_anchored_spec text last
                (Hanch _ (nth_error_In _ _ Hlast))) as (_ & Hl1 & Hl2 & _).
  pose proof (tokens_in_order_lower _ _ _ _ Hord Hfirst) as Hf0.
  assert (Hle : (Token_idx first <= Token_idx last + len (Token_text last))%Z).
  { destruct (Z.eq_dec (Span_start s) (Span_end s - 1)) as [Heq|Hne].
    - rewrite Heq, Hlast in Hfirst. injection Hfirst as <-. lia.
    - assert (Hij : Z.to_nat (Span_start s) < Z.to_nat (Span_end s - 1)) by lia.
      pose proof (tokens_in_order_pair _ _ _ _ _ _ Hord Hij Hfirst Hlast).
      pose proof (len_nonneg (Token_text first)). lia. }
  rewrite Hsc, Hec. repeat split; try lia.
  rewrite Htext, Hsc, Hec. reflexivity.
Qed.



End ContractFacts.

(** ** Roots *)

Lemma filter_count_split {A : Type} (p q : A -> bool) (l : list A) :
  (forall x, In x l -> p x = true -> q x = true) ->
  length (filter q l)
  = length (filter p l) + length (filter (fun x => negb (p x) && q x) l).
Proof.
  induction l as [|a l IH]; intros Hpq; [reflexivity|].
  assert (IH' := IH (fun x Hx => Hpq x (or_intror Hx))).
  specialize (Hpq a (or_introl eq_refl)) as Ha.
  simpl. destruct (p a) eqn:Hp.
  - rewrite (Ha eq_refl). simpl. now rewrite IH'.
  - destruct (q a); simpl; rewrite IH'; lia.
Qed.

Section Roots.

Context {nlp : Language}.

(** In a document of one sentence exactly one token is its own head. *)
Lemma single_sentence_one_root (text : string) (d : Doc) :
  well_formed_doc text d = true -> length (sents d) = 1 ->
  length (filter is_root (Doc_iter d)) = 1.
Proof.
  intros Hwf Hone.
  apply well_formed_doc_parts in Hwf as (_ & _ & _ & _ & _ & Hroot & Hsent).
  destruct (sents d) as [|s [|s' l]] eqn:Hs; try discriminate.
  simpl in Hroot. rewrite andb_true_r in Hroot.
  unfold one_root_in in Hroot. apply Nat.eqb_eq in Hroot.
  rewrite <- Hroot. f_equal. apply filter_ext_in. intros t Ht.
  rewrite forallb_forall in Hsent. specialize (Hsent t Ht).
  unfold in_one_sentence in Hsent. rewrite Hs in Hsent. simpl in Hsent.
  destruct (in_span s t); [reflexivity | discriminate].
Qed.

(** The head of a root reads as the root itself. *)
Lemma root_same_text (text : string) (d : Doc) (t : SpacyToken) :
  well_formed_doc text d = true -> In t (Doc_iter d) ->
  is_root t = true -> same_text_as_head t = true.
Proof.
  intros Hwf Ht Hroot.
  apply well_formed_doc_parts in Hwf as (Hnum & _ & _ & _ & Hhead & _ & _).
  rewrite forallb_forall in Hhead. specialize (Hhead t Ht).
  unfold head_in_doc in Hhead. unfold is_root in Hroot.
  apply Nat.eqb_eq in Hroot. rewrite Hroot in Hhead.
  destruct (In_nth_error _ _ Ht) as [j Hj].
  rewrite (tokens_numbered_nth _ _ _ _ Hnum Hj) in Hhead. simpl in Hhead.
  rewrite Hj in Hhead. unfold same_text_as_head.
  apply String.eqb_eq in Hhead. apply String.eqb_eq. congruence.
Qed.

(** When all tokens of a document read the same, every token reads like its
    head, whatever the parse. *)
Lemma same_words_same_text_as_head (text : string) (d : Doc) (w : string) :
  well_formed_doc text d = true ->
  (forall t, In t (Doc_iter d) -> Token_text t = w) ->
  forallb same_text_as_head (Doc_iter d) = true.
Proof.
  intros Hwf Hw.
  apply well_formed_doc_parts in Hwf as (_ & _ & _ & _ & Hhead & _ & _).
  rewrite forallb_forall in Hhead. apply forallb_forall. intros t Ht.
  specialize (Hhead t Ht). unfold head_in_doc in Hhead.
  destruct (nth_error (Doc_iter d) (Token_i (head t))) as [h|] eqn:Hh;
    [|discriminate].
  apply String.eqb_eq in Hhead. unfold same_text_as_head. apply String.eqb_eq.
  rewrite <- Hhead, (Hw h (nth_error_In _ _ Hh)), (Hw t Ht). reflexivity.
Qed.

Lemma self_headed_records (toks : list SpacyToken) :
  filter self_headed
    (map (fun token =>
            DependencyRecord.mk (Token_text token) (dep_ token)
                                (Token_text (head token))
                                (map Token_text (children token))) toks)
  = map (fun token =>
           DependencyRecord.mk (Token_text token) (dep_ token)
                               (Token_text (head token))
                               (map Token_text (children token)))
        (filter same_text_as_head toks).
Proof. apply filter_map_swap. Qed.

End Roots.


(** ** More on strings *)

Lemma substring_none (s : string) : substring 0 0 s = "".
Proof. destruct s; reflexivity. Qed.

Lemma substring_append (s : string) :
  forall a m1 m2,
    substring a (m1 + m2) s = substring a m1 s ++ substring (a + m1) m2 s.
Proof.
  induction s as [|c s IH]; intros a m1 m2.
  - now rewrite !substring_of_empty.
  - destruct a as [|a].
    + destruct m1 as [|m1]; simpl; [reflexivity|].
      f_equal. exact (IH 0 m1 m2).
    + simpl. exact (IH a m1 m2).
Qed.

Lemma substring_whole (s : string) : substring 0 (String.length s) s = s.
Proof. induction s as [|c s IH]; simpl; [reflexivity | now rewrite IH]. Qed.

Lemma substring_length (s : string) :
  forall n m, n + m <= String.length s -> String.length (substring n m s) = m.
Proof.
  induction s as [|c s IH]; intros n m Hnm; simpl in Hnm.
  - assert (n = 0 /\ m = 0) as [-> ->] by lia. reflexivity.
  - destruct n as [|n].
    + destruct m as [|m]; simpl; [reflexivity|].
      f_equal. apply (IH 0 m). lia.
    + simpl. apply IH. lia.
Qed.

(** ** Tokens and spans inside the text *)

Section Layout.

Context {nlp : Language}.

Lemma token_text_at (text : string) (t : SpacyToken) :
  token_anchored text t = true ->
  substring (Z.to_nat (Token_idx t)) (String.length (Token_text t)) text
  = Token_text t.
Proof.
  intros Ht. apply token_anchored_spec in Ht as (_ & _ & _ & Hsl).
  unfold slice, len in Hsl.
  replace (Z.to_nat (Token_idx t + Z.of_nat (String.length (Token_text t))
                     - Token_idx t))
    with (String.length (Token_text t)) in Hsl by lia.
  exact Hsl.
Qed.

(** Ordered, anchored tokens occur one after the other in what is left of
    the text from [from] on. *)
Lemma tokens_occur_from (text : string) (toks : list SpacyToken) :
  forall from, (0 <= from)%Z ->
    tokens_in_order from toks = true ->
    forallb (token_anchored text) toks = true ->
    occur_in_order (map Token_text toks)
      (substring (Z.to_nat from) (String.length text - Z.to_nat from) text).
Proof.
  induction toks as [|t toks IH]; intros from Hfrom Hord Hanch; [exact I|].
  simpl in Hord, Hanch.
  apply andb_true_iff in Hord as [Hle Hord], Hanch as [Ht Hanch].
  apply Z.leb_le in Hle.
  pose proof (token_text_at text t Ht) as Htext.
  apply token_anchored_spec in Ht as (H0 & H1 & H2 & _).
  unfold len in H1, H2.
  specialize (IH (Token_idx t + len (Token_text t))%Z).
  unfold len in IH.
  replace (Z.to_nat (Token_idx t + Z.of_nat (String.length (Token_text t))))
    with (Z.to_nat (Token_idx t) + String.length (Token_text t)) in IH by lia.
  simpl.
  exists (substring (Z.to_nat from) (Z.to_nat (Token_idx t) - Z.to_nat from) text).
  eexists. split; [|apply IH; [lia | exact Hord | exact Hanch]].
  replace (String.length text - Z.to_nat from)
    with ((Z.to_nat (Token_idx t) - Z.to_nat from)
          + (String.length (Token_text t)
             + (String.length text
                - (Z.to_nat (Token_idx t) + String.length (Token_text t)))))
    by lia.
  rewrite substring_append. f_equal.
  replace (Z.to_nat from + (Z.to_nat (Token_idx t) - Z.to_nat from))
    with (Z.to_nat (Token_idx t)) by lia.
  rewrite substring_append, Htext. reflexivity.
Qed.

(** They fit in the text: neither their number nor their total length
    exceeds what is left of it. *)
Lemma tokens_fit (text : string) (toks : list SpacyToken) :
  forall from, (from <= len text)%Z ->
    tokens_in_order from toks = true ->
    forallb (token_anchored text) toks = true ->
    (from + total_len (map Token_text toks) <= len text)%Z
    /\ (from + Z.of_nat (length toks) <= len text)%Z.
Proof.
  induction toks as [|t toks IH]; intros from Hfrom Hord Hanch.
  - simpl. lia.
  - simpl in Hord, Hanch.
    apply andb_true_iff in Hord as [Hle Hord], Hanch as [Ht Hanch].
    apply Z.leb_le in Hle.
    apply token_anchored_spec in Ht as (H0 & H1 & H2 & _).
    destruct (IH _ H2 Hord Hanch) as [IHlen IHnum].
    change (total_len (map Token_text (t :: toks)))
      with (len (Token_text t) + total_len (map Token_text toks))%Z.
    change (length (t :: toks)) with (S (length toks)). lia.
Qed.

(** A well-formed span has at least one character, and its text has as many
    characters as its offsets are apart. *)
Lemma span_nonempty (text : string) (d : Doc) (s : Span) :
  forallb (token_anchored text) (Doc_iter d) = true ->
  tokens_in_order 0 (Doc_iter d) = true ->
  span_well_formed text d s = true ->
  (start_char s < end_char s)%Z
  /\ len (Span_text s) = (end_char s - start_char s)%Z.
Proof.
  intros Hanch Hord Hs.
  pose proof (span_within_text text d s Hanch Hord Hs) as (Hse & Hend & Hsl).
  assert (Hlen : len (Span_text s) = (end_char s - start_char s)%Z).
  { rewrite <- Hsl. unfold slice, len. rewrite substring_length.
    - lia.
    - unfold len in Hend. lia. }
  split; [|exact Hlen].
  unfold span_well_formed in Hs.
  destruct (token_at d (Span_start s)) as [first|] eqn:Hfirst; [|discriminate].
  destruct (token_at d (Span_end s - 1)) as [last|] eqn:Hlast; [|discriminate].
  rewrite !andb_true_iff, Z.ltb_lt, !Z.eqb_eq in Hs.
  destruct Hs as (((Hlt & Hsc) & Hec) & _).
  apply token_at_nth in Hfirst as [H0 Hfirst], Hlast as [H1 Hlast].
  rewrite forallb_forall in Hanch.
  pose proof (token_anchored_spec text last
                (Hanch _ (nth_error_In _ _ Hlast))) as (_ & Hl1 & _).
  destruct (Z.eq_dec (Span_start s) (Span_end s - 1)) as [Heq|Hne].
  - rewrite Heq, Hlast in Hfirst. injection Hfirst as <-. lia.
  - assert (Hij : Z.to_nat (Span_start s) < Z.to_nat (Span_end s - 1)) by lia.
    pose proof (tokens_in_order_pair _ _ _ _ _ _ Hord Hij Hfirst Hlast).
    pose proof (len_nonneg (Token_text first)). lia.
Qed.

End Layout.

(** ** Counting roots and sentences *)

Lemma count_indicator {A : Type} (p : A -> bool) (l : list A) :
  list_sum (map (fun x => if p x then 1 else 0) l) = length (filter p l).
Proof.
  induction l as [|a l IH]; [reflexivity|].
  simpl. rewrite IH. destruct (p a); reflexivity.
Qed.

Lemma list_sum_map_add {A : Type} (f g : A -> nat) (l : list A) :
  list_sum (map (fun x => f x + g x) l)
  = list_sum (map f l) + list_sum (map g l).
Proof.
  induction l as [|a l IH]; [reflexivity|]. simpl. rewrite IH. lia.
Qed.

Lemma list_sum_map_ext_in {A : Type} (f g : A -> nat) (l : list A) :
  (forall x, In x l -> f x = g x) ->
  list_sum (map f l) = list_sum (map g l).
Proof. intros Hfg. f_equal. now apply map_ext_in. Qed.

(** Counting the pairs of a relation by rows or by columns. *)
Lemma count_swap {A B : Type} (p : A -> B -> bool)
  (l1 : list A) (l2 : list B) :
  list_sum (map (fun a => length (filter (p a) l2)) l1)
  = list_sum (map (fun b => length (filter (fun a => p a b) l1)) l2).
Proof.
  induction l1 as [|a l1 IH].
  - simpl. induction l2 as [|b l2 IH2]; [reflexivity | exact IH2].
  - simpl. rewrite IH.
    rewrite (list_sum_map_ext_in
               (fun b => length (filter (fun x => p x b) (a :: l1)))
               (fun b => (if p a b then 1 else 0)
                         + length (filter (fun x => p x b) l1))).
    + now rewrite list_sum_map_add, count_indicator.
    + intros b _. simpl. destruct (p a b); reflexivity.
Qed.

Section Sentences.

Context {nlp : Language}.

(** A well-formed document has as many roots as sentences. *)
Lemma roots_count_sentences (text : string) (d : Doc) :
  well_formed_doc text d = true ->
  length (filter is_root (Doc_iter d)) = length (sents d).
Proof.
  intros Hwf.
  apply well_formed_doc_parts in Hwf as (_ & _ & _ & _ & _ & Hroot & Hsent).
  rewrite forallb_forall in Hroot, Hsent.
  rewrite <- count_indicator.
  rewrite (list_sum_map_ext_in
             (fun t => if is_root t then 1 else 0)
             (fun t => length (filter (fun s => in_span s t && is_root t)
                                      (sents d)))).
  - rewrite <- (count_swap (fun s t => in_span s t && is_root t)).
    rewrite (list_sum_map_ext_in _ (fun _ => 1)).
    + clear. induction (sents d) as [|s l IH]; [reflexivity|].
      simpl. now rewrite IH.
    + intros s Hs. specialize (Hroot s Hs). unfold one_root_in in Hroot.
      now apply Nat.eqb_eq in Hroot.
  - intros t Ht. specialize (Hsent t Ht). unfold in_one_sentence in Hsent.
    apply Nat.eqb_eq in Hsent. destruct (is_root t).
    + rewrite <- Hsent. f_equal. apply filter_ext. intros s.
      now rewrite andb_true_r.
    + rewrite (filter_ext _ (fun _ => false))
        by (intros s; apply andb_false_r).
      now rewrite filter_false.
Qed.

End Sentences.


(** ** Running the handlers *)

Section Runs.

Context {nlp : Language}.

Variable w : World.

Lemma ner_runs (text : string) :
  named_entity_recognition (TextRequest.mk text) (running nlp w)
  = (match call text with
     | Processed doc =>
         Return (NERResponse.mk
                   (map (fun ent => Entity.mk (Span_text ent) (label_ ent)
                                              (start_char ent) (end_char ent))
                        (ents doc)))
     | Failed cls msg => Raise (EngineError cls msg)
     end, running nlp w).
Proof.
  unfold named_entity_recognition, bind, global_nlp, call_pipeline, ret.
  simpl. destruct (call text); reflexivity.
Qed.

Lemma pos_runs (text : string) :
  parts_of_speech (TextRequest.mk text) (running nlp w)
  = (match call text with
     | Processed doc =>
         Return (POSResponse.mk
                   (map (fun token => Token.mk (Token_text token) (pos_ token)
                                               (tag_ token) (dep_ token)
                                               (lemma_ token))
                        (Doc_iter doc)))
     | Failed cls msg => Raise (EngineError cls msg)
     end, running nlp w).
Proof.
  unfold parts_of_speech, bind, global_nlp, call_pipeline, ret.
  simpl. destruct (call text); reflexivity.
Qed.

Lemma analysis_runs (text : string) :
  basic_analysis (TextRequest.mk text) (running nlp w)
  = (match call text with
     | Processed doc =>
         Return (Analysis.mk (map Token_text (Doc_iter doc))
                             (map lemma_ (Doc_iter doc))
                             (map Span_str (sents doc))
                             (map Span_text (noun_chunks doc)))
     | Failed cls msg => Raise (EngineError cls msg)
     end, running nlp w).
Proof.
  unfold basic_analysis, bind, global_nlp, call_pipeline, ret.
  simpl. destruct (call text); reflexivity.
Qed.

Lemma dependency_runs (text : string) :
  dependency_parse (TextRequest.mk text) (running nlp w)
  = (match call text with
     | Processed doc =>
         Return (DependencyResponse.mk
                   (map (fun token =>
                           DependencyRecord.mk (Token_text token) (dep_ token)
                                               (Token_text (head token))
                                               (map Token_text (children token)))
                        (Doc_iter doc)))
     | Failed cls msg => Raise (EngineError cls msg)
     end, running nlp w).
Proof.
  unfold dependency_parse, bind, global_nlp, call_pipeline, ret.
  simpl. destruct (call text); reflexivity.
Qed.

Lemma similarity_refuses (texts : list string) :
  length texts <> 2 ->
  text_similarity (TextsRequest.mk texts) (running nlp w)
  = (Raise (HTTPException 400 similarity_detail), running nlp w).
Proof.
  intros Hlen. unfold text_similarity. simpl.
  destruct (Nat.eqb_spec (length texts) 2) as [Heq|_]; [contradiction|].
  reflexivity.
Qed.

Lemma similarity_runs (a b : string) :
  text_similarity (TextsRequest.mk [a; b]) (running nlp w)
  = (match call a with
     | Failed cls msg => Raise (EngineError cls msg)
     | Processed doc1 =>
         match call b with
         | Failed cls msg => Raise (EngineError cls msg)
         | Processed doc2 =>
             Return (SimilarityResponse.mk (to_float (similarity doc1 doc2)))
         end
     end, running nlp w).
Proof.
  unfold text_similarity, bind, global_nlp, call_pipeline, getitem, ret.
  simpl. destruct (call a); [|reflexivity]. destruct (call b); reflexivity.
Qed.

End Runs.

Lemma two_texts (texts : list string) :
  length texts = 2 -> exists a b, texts = [a; b].
Proof.
  destruct texts as [|a [|b [|c l]]]; try discriminate.
  intros _. now exists a, b.
Qed.

Lemma process_running (st : Process) :
  st = running (Globals.nlp (fst st)) (snd st).
Proof. destruct st as [[nlp] w]. reflexivity. Qed.

(** The handlers leave the state of the process as they find it. *)
Lemma ner_keeps_state (request : TextRequest.t) (st : Process) :
  snd (named_entity_recognition request st) = st.
Proof.
  destruct request as [text]. rewrite (process_running st) at 1.
  rewrite ner_runs. symmetry. apply process_running.
Qed.

Lemma pos_keeps_state (request : TextRequest.t) (st : Process) :
  snd (parts_of_speech request st) = st.
Proof.
  destruct request as [text]. rewrite (process_running st) at 1.
  rewrite pos_runs. symmetry. apply process_running.
Qed.

Lemma analysis_keeps_state (request : TextRequest.t) (st : Process) :
  snd (basic_analysis request st) = st.
Proof.
  destruct request as [text]. rewrite (process_running st) at 1.
  rewrite analysis_runs. symmetry. apply process_running.
Qed.

Lemma dependency_keeps_state (request : TextRequest.t) (st : Process) :
  snd (dependency_parse request st) = st.
Proof.
  destruct request as [text]. rewrite (process_running st) at 1.
  rewrite dependency_runs. symmetry. apply process_running.
Qed.

Lemma similarity_keeps_state (request : TextsRequest.t) (st : Process) :
  snd (text_similarity request st) = st.
Proof.
  destruct request as [texts]. rewrite (process_running st) at 1.
  destruct (Nat.eq_dec (length texts) 2) as [Heq|Hne].
  - destruct (two_texts texts Heq) as (a & b & ->).
    rewrite similarity_runs. symmetry. apply process_running.
  - rewrite (similarity_refuses _ _ Hne). symmetry. apply process_running.
Qed.

Lemma bind_keeps_state {A B : Type} (m : M A) (f : A -> B) (st : Process) :
  snd (m st) = st -> snd ((x <- m ;; ret (f x)) st) = st.
Proof.
  unfold bind, ret. destruct (m st) as [[a|e] st']; simpl; auto.
Qed.

Lemma route_keeps_state (req : Request) (st : Process) :
  snd (route req st) = st.
Proof.
  destruct req as [body|body|body|body|body]; simpl; apply bind_keeps_state.
  - apply ner_keeps_state.
  - apply pos_keeps_state.
  - apply similarity_keeps_state.
  - apply analysis_keeps_state.
  - apply dependency_keeps_state.
Qed.

Lemma serve_responses (reqs : list Request) (st : Process) :
  serve reqs st = (map (fun req => fst (route req st)) reqs, st).
Proof.
  induction reqs as [|req reqs IH]; [reflexivity|].
  simpl. unfold handle. pose proof (route_keeps_state req st) as Hst.
  destruct (route req st) as [resp st']. simpl in Hst. subst st'.
  now rewrite IH.
Qed.

(** A computation of the process can change its state: loading a pipeline
    adds to the log of loads, whether the package is found or not. *)
Lemma load_while_running_changes_state (name : string) (st : Process) :
  snd (load_while_running name st) <> st.
Proof.
  destruct st as [g w]. unfold load_while_running, spacy_load. simpl.
  destruct (installed w name); simpl; intros Hst;
    apply (f_equal (fun st' => length (load_calls (snd st')))) in Hst;
    simpl in Hst; rewrite length_app in Hst; simpl in Hst; lia.
Qed.

(** ** The long text *)

Lemma long_text_exceeds : Table.exceeds Table.long_text Table.max_length = true.
Proof. vm_compute. reflexivity. Qed.

Lemma call_long_text :
  @call Table.en Table.long_text = Failed "ValueError" Table.too_long.
Proof.
  change (@call Table.en Table.long_text)
    with (if Table.exceeds Table.long_text Table.max_length
          then @Failed Table.DocRow "ValueError" Table.too_long
          else Processed (Table.lookup [Table.apple_doc; Table.police_doc]
                                       Table.long_text)).
  now rewrite long_text_exceeds.
Qed.

Lemma call_apple_text :
  @call Table.en Table.apple_text = Processed Table.apple_doc.
Proof. reflexivity. Qed.

Lemma call_police_text :
  @call Table.en Table.police_text = Processed Table.police_doc.
Proof. reflexivity. Qed.


(** ** Properties of the handlers *)

(** C1, as amended: [text_similarity] raises the 400 [HTTPException] with
    exactly the message "Exactly two texts must be provided for similarity
    comparison" if and only if [texts] does not have length 2, and raises no
    other [HTTPException]; with two texts, equal or not, that the pipeline
    processes, it returns a [SimilarityResponse] whose [similarity] is the
    float of the pipeline's similarity of the two documents; when the
    pipeline raises on the first text, or on the second after the first, that
    exception is what the handler ends in. *)
Theorem text_similarity_bad_request_iff {nlp : Language} (w : World)
  (request : TextsRequest.t) :
  (fst (text_similarity request (running nlp w))
   = Raise (HTTPException 400
        "Exactly two texts must be provided for similarity comparison")
   <-> length (TextsRequest.texts request) <> 2)
  /\ (forall status detail,
        fst (text_similarity request (running nlp w))
        = Raise (HTTPException status detail) ->
        status = 400%Z
        /\ detail
           = "Exactly two texts must be provided for similarity comparison")
  /\ (forall a b doc1 doc2,
        TextsRequest.texts request = [a; b] ->
        call a = Processed doc1 -> call b = Processed doc2 ->
        text_similarity request (running nlp w)
        = (Return (SimilarityResponse.mk (to_float (similarity doc1 doc2))),
           running nlp w))
  /\ (forall a doc,
        TextsRequest.texts request = [a; a] -> call a = Processed doc ->
        exists x : float,
          fst (text_similarity request (running nlp w))
          = Return (SimilarityResponse.mk x))
  /\ (forall a b cls msg,
        TextsRequest.texts request = [a; b] -> call a = Failed cls msg ->
        text_similarity request (running nlp w)
        = (Raise (EngineError cls msg), running nlp w))
  /\ (forall a b doc1 cls msg,
        TextsRequest.texts request = [a; b] ->
        call a = Processed doc1 -> call b = Failed cls msg ->
        text_similarity request (running nlp w)
        = (Raise (EngineError cls msg), running nlp w)).
Proof.
  destruct request as [texts]. simpl.
  change "Exactly two texts must be provided for similarity comparison"
    with similarity_detail.
  destruct (Nat.eq_dec (length texts) 2) as [Heq|Hne].
  - destruct (two_texts texts Heq) as (a & b & ->).
    rewrite similarity_runs. simpl.
    split; [|split; [|split; [|split; [|split]]]].
    + split; [|intros Hlen; now elim Hlen].
      destruct (call a); [destruct (call b)|]; discriminate.
    + intros status detail.
      destruct (call a); [destruct (call b)|]; discriminate.
    + intros a' b' d1 d2 Hab Ha Hb. injection Hab as <- <-.
      now rewrite Ha, Hb.
    + intros a' d Hab Ha. injection Hab as <- <-. rewrite Ha.
      eexists. reflexivity.
    + intros a' b' cls msg Hab Ha. injection Hab as <- <-. now rewrite Ha.
    + intros a' b' d1 cls msg Hab Ha Hb. injection Hab as <- <-.
      now rewrite Ha, Hb.
  - rewrite (similarity_refuses _ _ Hne). simpl.
    split; [|split; [|split; [|split; [|split]]]].
    + split; [intros _; exact Hne | reflexivity].
    + intros status detail H. injection H as <- <-. split; reflexivity.
    + intros a b d1 d2 ->. now elim Hne.
    + intros a d ->. now elim Hne.
    + intros a b cls msg ->. now elim Hne.
    + intros a b d1 cls msg ->. now elim Hne.
Qed.



(** C6, as amended: on a well-formed document of one sentence
    [dependency_parse] returns at least one record whose [head] equals its
    own [token]: the record of the root, and one more for every other token
    whose head has the same surface text; so exactly one when no token other
    than the root reads like its head. *)
Theorem dependency_parse_self_headed_count {nlp : Language} (w : World)
  (text : string) (doc : Doc)
  (Hcall : call text = Processed doc)
  (Hwf : well_formed_doc text doc = true)
  (Hone : length (sents doc) = 1) :
  exists resp,
    dependency_parse (TextRequest.mk text) (running nlp w)
    = (Return resp, running nlp w)
    /\ length (filter self_headed (DependencyResponse.dependencies resp))
       = 1 + length (filter (fun t => negb (is_root t) && same_text_as_head t)
                            (Doc_iter doc))
    /\ 1 <= length (filter self_headed (DependencyResponse.dependencies resp))
    /\ ((forall t, In t (Doc_iter doc) -> is_root t = false ->
           Token_text (head t) <> Token_text t) ->
        one_self_headed_record resp).
Proof.
  rewrite dependency_runs, Hcall.
  eexists. split; [reflexivity|]. unfold one_self_headed_record. simpl.
  rewrite self_headed_records, length_map.
  rewrite (filter_count_split is_root same_text_as_head)
    by (intros t Ht; exact (root_same_text text _ t Hwf Ht)).
  rewrite (single_sentence_one_root text _ Hwf Hone).
  repeat split; [lia|]. intros Hdiff.
  rewrite (filter_ext_in _ (fun _ => false)); [now rewrite filter_false|].
  intros t Ht. destruct (is_root t) eqn:Hr; [reflexivity|]. simpl.
  unfold same_text_as_head. apply String.eqb_neq. exact (Hdiff t Ht Hr).
Qed.

(** C7: whatever requests arrive, a run calls [spacy.load] exactly once, with
    the configured model name, before anything is served, and no handler
    calls it again; when the model is not installed the run is a crash with
    the [RuntimeError] of the module and has no responses; when it is
    installed every request gets a response, each a body, the 400 of
    [text_similarity] or an exception of the pipeline, none the error of the
    missing model. *)
Theorem model_loaded_once_at_startup (w : World) (reqs : list Request) :
  (installed w model_name = None ->
   exists w',
     run w reqs = Crashed (RuntimeError model_not_found) w'
     /\ load_calls w' = (load_calls w ++ [model_name])%list)
  /\ (forall pipeline, installed w model_name = Some pipeline ->
      exists resps w',
        run w reqs = Served resps (Globals.mk pipeline, w')
        /\ load_calls w' = (load_calls w ++ [model_name])%list
        /\ length resps = length reqs
        /\ Forall body_or_bad_request_or_engine resps
        /\ Forall (fun r => r <> Raise (RuntimeError model_not_found)
                            /\ r <> Raise OSError) resps).
Proof.
  unfold run, load_model, spacy_load. split.
  - intros ->. eexists. split; reflexivity.
  - intros pipeline ->. rewrite serve_responses.
    eexists _, _. split; [reflexivity|]. split; [reflexivity|].
    split; [apply length_map|].
    set (st := (Globals.mk pipeline, _)).
    assert (Hall : Forall body_or_bad_request_or_engine
                     (map (fun req => fst (route req st)) reqs)).
    { apply Forall_map, Forall_forall. intros req _.
      rewrite (process_running st). unfold body_or_bad_request_or_engine.
      destruct req as [[text]|[text]|[texts]|[text]|[text]]; simpl;
        unfold bind, ret.
      - rewrite ner_runs. destruct (call text); simpl; eauto.
      - rewrite pos_runs. destruct (call text); simpl; eauto.
      - destruct (Nat.eq_dec (length texts) 2) as [Heq|Hne].
        + destruct (two_texts texts Heq) as (a & b & ->).
          rewrite similarity_runs.
          destruct (call a); [destruct (call b)|]; simpl; eauto.
        + rewrite (similarity_refuses _ _ Hne). simpl. eauto.
      - rewrite analysis_runs. destruct (call text); simpl; eauto.
      - rewrite dependency_runs. destruct (call text); simpl; eauto. }
    split; [exact Hall|].
    eapply Forall_impl; [|exact Hall].
    intros r [[b ->]|[->|(cls & msg & ->)]]; split; discriminate.
Qed.

(** C8: each of the five handlers, and so the handling of any request,
    leaves the process state as it found it; hence the response to a request
    is the same after any requests handled in between: in a batch that
    starts and ends with the same request, the first and the last response
    are equal. *)
Theorem handlers_stateless (st : Process)
  (between : list Request) (req : Request) :
  (forall request,
     snd (named_entity_recognition request st) = st
     /\ snd (parts_of_speech request st) = st
     /\ snd (basic_analysis request st) = st
     /\ snd (dependency_parse request st) = st)
  /\ (forall request, snd (text_similarity request st) = st)
  /\ snd (handle req st) = st
  /\ snd (serve between st) = st
  /\ fst (handle req (snd (serve between st))) = fst (handle req st)
  /\ exists mid,
       fst (serve (req :: between ++ [req])%list st)
       = (fst (handle req st) :: mid ++ [fst (handle req st)])%list
       /\ length mid = length between.
Proof.
  split.
  { intros request. repeat split.
    - apply ner_keeps_state.
    - apply pos_keeps_state.
    - apply analysis_keeps_state.
    - apply dependency_keeps_state. }
  split; [intros request; apply similarity_keeps_state|].
  unfold handle. rewrite !serve_responses. simpl.
  split; [apply route_keeps_state|]. repeat split.
  exists (map (fun r => fst (route r st)) between).
  rewrite map_app, length_map. split; reflexivity.
Qed.

(** C9: for every text, when the pipeline returns a document the [tokens] of
    [/pos], the [tokens] and [lemmas] of [/basic-analysis] and the
    [dependencies] of [/dependency-parse] have the length of the document's
    token list, and the token texts of the three responses agree position by
    position; when the pipeline raises, the three handlers end in that same
    exception and produce no sequence. *)
Theorem token_sequences_agree {nlp : Language} (w : World) (text : string) :
  (forall doc, call text = Processed doc ->
     exists p a d,
       parts_of_speech (TextRequest.mk text) (running nlp w)
       = (Return p, running nlp w)
       /\ basic_analysis (TextRequest.mk text) (running nlp w)
          = (Return a, running nlp w)
       /\ dependency_parse (TextRequest.mk text) (running nlp w)
          = (Return d, running nlp w)
       /\ length (POSResponse.tokens p) = length (Doc_iter doc)
       /\ length (Analysis.tokens a) = length (Doc_iter doc)
       /\ length (Analysis.lemmas a) = length (Doc_iter doc)
       /\ length (DependencyResponse.dependencies d) = length (Doc_iter doc)
       /\ map Token.text (POSResponse.tokens p) = Analysis.tokens a
       /\ map DependencyRecord.token (DependencyResponse.dependencies d)
          = Analysis.tokens a
       /\ map Token.lemma (POSResponse.tokens p) = Analysis.lemmas a)
  /\ (forall cls msg, call text = Failed cls msg ->
        fst (parts_of_speech (TextRequest.mk text) (running nlp w))
        = Raise (EngineError cls msg)
        /\ fst (basic_analysis (TextRequest.mk text) (running nlp w))
           = Raise (EngineError cls msg)
        /\ fst (dependency_parse (TextRequest.mk text) (running nlp w))
           = Raise (EngineError cls msg)).
Proof.
  rewrite pos_runs, analysis_runs, dependency_runs. split.
  - intros doc ->. eexists _, _, _. repeat (split; [reflexivity|]). simpl.
    rewrite !length_map, !map_map. simpl. repeat split.
  - intros cls msg ->. repeat split.
Qed.

(** C10, as amended: for every text the four single-text handlers have no
    error branch of their own: each returns a response when the pipeline
    processes the text, the only exception any of them ends in is the one
    the pipeline raised on the text, and none ever raises an
    [HTTPException]; [text_similarity] does raise its 400, for instance on an
    empty list. *)
Theorem single_text_handlers_total {nlp : Language} (w : World)
  (text : string) :
  (forall doc, call text = Processed doc ->
     (exists r, named_entity_recognition (TextRequest.mk text) (running nlp w)
                = (Return r, running nlp w))
     /\ (exists r, parts_of_speech (TextRequest.mk text) (running nlp w)
                   = (Return r, running nlp w))
     /\ (exists r, basic_analysis (TextRequest.mk text) (running nlp w)
                   = (Return r, running nlp w))
     /\ (exists r, dependency_parse (TextRequest.mk text) (running nlp w)
                   = (Return r, running nlp w)))
  /\ (forall e,
        fst (named_entity_recognition (TextRequest.mk text) (running nlp w))
        = Raise e
        \/ fst (parts_of_speech (TextRequest.mk text) (running nlp w))
           = Raise e
        \/ fst (basic_analysis (TextRequest.mk text) (running nlp w))
           = Raise e
        \/ fst (dependency_parse (TextRequest.mk text) (running nlp w))
           = Raise e ->
        exists cls msg, e = EngineError cls msg /\ call text = Failed cls msg)
  /\ (forall status detail,
        fst (named_entity_recognition (TextRequest.mk text) (running nlp w))
        <> Raise (HTTPException status detail)
        /\ fst (parts_of_speech (TextRequest.mk text) (running nlp w))
           <> Raise (HTTPException status detail)
        /\ fst (basic_analysis (TextRequest.mk text) (running nlp w))
           <> Raise (HTTPException status detail)
        /\ fst (dependency_parse (TextRequest.mk text) (running nlp w))
           <> Raise (HTTPException status detail))
  /\ fst (text_similarity (TextsRequest.mk []) (running nlp w))
     = Raise (HTTPException 400 similarity_detail).
Proof.
  rewrite ner_runs, pos_runs, analysis_runs, dependency_runs.
  split; [|split; [|split]].
  - intros doc ->. repeat split; eexists; reflexivity.
  - intros e. destruct (call text) as [doc|cls msg]; simpl.
    + intros [H|[H|[H|H]]]; discriminate.
    + intros [H|[H|[H|H]]]; injection H as <-; eauto.
  - intros status detail. destruct (call text); repeat split; discriminate.
  - reflexivity.
Qed.

(** ** Further properties of the handlers *)

(** X1: on a well-formed document the token texts returned by
    [parts_of_speech] and by [basic_analysis] occur in the input one after the
    other, left to right, without overlap. *)
Theorem tokens_occur_in_text_order {nlp : Language} (w : World)
  (text : string) (doc : Doc)
  (Hcall : call text = Processed doc)
  (Hwf : well_formed_doc text doc = true) :
  exists p a,
    parts_of_speech (TextRequest.mk text) (running nlp w)
    = (Return p, running nlp w)
    /\ basic_analysis (TextRequest.mk text) (running nlp w)
       = (Return a, running nlp w)
    /\ occur_in_order (map Token.text (POSResponse.tokens p)) text
    /\ occur_in_order (Analysis.tokens a) text.
Proof.
  rewrite pos_runs, analysis_runs, Hcall.
  eexists _, _. split; [reflexivity|]. split; [reflexivity|]. simpl.
  apply well_formed_doc_parts in Hwf as (_ & Hanch & Hord & _).
  pose proof (tokens_occur_from text _ 0%Z (Z.le_refl 0) Hord Hanch) as Hocc.
  change (Z.to_nat 0) with 0 in Hocc.
  rewrite Nat.sub_0_r, substring_whole in Hocc.
  rewrite map_map. simpl. split; exact Hocc.
Qed.

(** X2: on a well-formed document [parts_of_speech] returns at most
    [len(text)] tokens, and the lengths of their texts add up to at most
    [len(text)]. *)
Theorem tokens_fit_in_text {nlp : Language} (w : World)
  (text : string) (doc : Doc)
  (Hcall : call text = Processed doc)
  (Hwf : well_formed_doc text doc = true) :
  exists p,
    parts_of_speech (TextRequest.mk text) (running nlp w)
    = (Return p, running nlp w)
    /\ (Z.of_nat (length (POSResponse.tokens p)) <= len text)%Z
    /\ (total_len (map Token.text (POSResponse.tokens p)) <= len text)%Z.
Proof.
  rewrite pos_runs, Hcall. eexists. split; [reflexivity|]. simpl.
  apply well_formed_doc_parts in Hwf as (_ & Hanch & Hord & _).
  destruct (tokens_fit text _ 0%Z (len_nonneg text) Hord Hanch) as [Hlen Hnum].
  rewrite length_map, map_map. simpl.
  change (fun x : SpacyToken => Token_text x) with Token_text.
  split; lia.
Qed.

(** X3: on a well-formed document no [Entity] of the [/ner] response is
    empty: [start < end], the text has [end - start] characters and is not
    the empty string. *)
Theorem ner_entities_nonempty {nlp : Language} (w : World)
  (text : string) (doc : Doc)
  (Hcall : call text = Processed doc)
  (Hwf : well_formed_doc text doc = true) :
  exists resp,
    named_entity_recognition (TextRequest.mk text) (running nlp w)
    = (Return resp, running nlp w)
    /\ Forall (fun e =>
                 (Entity.start e < Entity.end_ e)%Z
                 /\ len (Entity.text e) = (Entity.end_ e - Entity.start e)%Z
                 /\ Entity.text e <> "")
              (NERResponse.entities resp).
Proof.
  rewrite ner_runs, Hcall. eexists. split; [reflexivity|]. simpl.
  apply well_formed_doc_parts in Hwf as (_ & Hanch & Hord & Hsp & _).
  rewrite !forallb_app in Hsp. apply andb_true_iff in Hsp as [Hents _].
  rewrite forallb_forall in Hents.
  apply Forall_map, Forall_forall. intros s Hs. simpl.
  destruct (span_nonempty text _ s Hanch Hord (Hents s Hs)) as [Hlt Hlen].
  repeat split; try assumption.
  intros Hempty. rewrite Hempty in Hlen. change (len "") with 0%Z in Hlen. lia.
Qed.

(** X4: on a well-formed document every noun phrase returned by
    [basic_analysis] is a contiguous substring of the input, and so is every
    sentence when [str(sent)] is the text of the sentence. *)
Theorem basic_analysis_spans_are_substrings {nlp : Language} (w : World)
  (text : string) (doc : Doc)
  (Hcall : call text = Processed doc)
  (Hwf : well_formed_doc text doc = true)
  (Hstr : forall s, In s (sents doc) -> Span_str s = Span_text s) :
  exists a,
    basic_analysis (TextRequest.mk text) (running nlp w)
    = (Return a, running nlp w)
    /\ Forall (fun p => contiguous_substring p text) (Analysis.noun_phrases a)
    /\ Forall (fun s => contiguous_substring s text) (Analysis.sentences a).
Proof.
  rewrite analysis_runs, Hcall. eexists. split; [reflexivity|]. simpl.
  apply well_formed_doc_parts in Hwf as (_ & Hanch & Hord & Hsp & _).
  rewrite !forallb_app, !andb_true_iff in Hsp.
  destruct Hsp as (_ & Hsents & Hchunks).
  rewrite forallb_forall in Hsents, Hchunks.
  split; apply Forall_map, Forall_forall; intros s Hs.
  - destruct (span_within_text text _ s Hanch Hord (Hchunks s Hs))
      as (Hse & Hend & Hsl).
    rewrite <- Hsl. now apply slice_occurs.
  - destruct (span_within_text text _ s Hanch Hord (Hsents s Hs))
      as (Hse & Hend & Hsl).
    rewrite (Hstr s Hs), <- Hsl. now apply slice_occurs.
Qed.

(** X5: on a well-formed document the [head] of every record returned by
    [dependency_parse] is the [token] of a record of the same response. *)
Theorem dependency_heads_are_tokens {nlp : Language} (w : World)
  (text : string) (doc : Doc)
  (Hcall : call text = Processed doc)
  (Hwf : well_formed_doc text doc = true) :
  exists d,
    dependency_parse (TextRequest.mk text) (running nlp w)
    = (Return d, running nlp w)
    /\ Forall (fun r =>
                 In (DependencyRecord.head r)
                    (map DependencyRecord.token
                         (DependencyResponse.dependencies d)))
              (DependencyResponse.dependencies d).
Proof.
  rewrite dependency_runs, Hcall. eexists. split; [reflexivity|]. simpl.
  apply well_formed_doc_parts in Hwf as (_ & _ & _ & _ & Hhead & _ & _).
  rewrite forallb_forall in Hhead.
  rewrite map_map. simpl.
  apply Forall_map, Forall_forall. intros t Ht. simpl.
  specialize (Hhead t Ht). unfold head_in_doc in Hhead.
  destruct (nth_error (Doc_iter doc) (Token_i (head t)))
    as [h|] eqn:Hh; [|discriminate].
  apply String.eqb_eq in Hhead. rewrite <- Hhead.
  apply in_map. exact (nth_error_In _ _ Hh).
Qed.

(** X6: on a well-formed document the records of [dependency_parse] whose
    [head] equals their [token] number the sentences returned by
    [basic_analysis] plus the tokens, other than roots, that read like their
    head; there are at most as many sentences as tokens, and no sentences
    exactly when there are no tokens. *)
Theorem self_headed_records_and_sentences {nlp : Language} (w : World)
  (text : string) (doc : Doc)
  (Hcall : call text = Processed doc)
  (Hwf : well_formed_doc text doc = true) :
  exists d a,
    dependency_parse (TextRequest.mk text) (running nlp w)
    = (Return d, running nlp w)
    /\ basic_analysis (TextRequest.mk text) (running nlp w)
       = (Return a, running nlp w)
    /\ length (filter self_headed (DependencyResponse.dependencies d))
       = length (Analysis.sentences a)
         + length (filter (fun t => negb (is_root t) && same_text_as_head t)
                          (Doc_iter doc))
    /\ length (Analysis.sentences a) <= length (Analysis.tokens a)
    /\ (Analysis.sentences a = [] <-> Analysis.tokens a = []).
Proof.
  rewrite dependency_runs, analysis_runs, Hcall.
  eexists _, _. split; [reflexivity|]. split; [reflexivity|]. simpl.
  pose proof (roots_count_sentences text _ Hwf) as Hroots.
  rewrite self_headed_records, !length_map.
  rewrite (filter_count_split is_root same_text_as_head)
    by (intros t Ht; exact (root_same_text text _ t Hwf Ht)).
  rewrite Hroots. split; [reflexivity|].
  pose proof (filter_length_le is_root (Doc_iter doc)) as Hle.
  split; [lia|].
  apply well_formed_doc_parts in Hwf as (_ & _ & _ & _ & _ & _ & Hsent).
  split; intros Hnil.
  - apply map_eq_nil in Hnil.
    destruct (Doc_iter doc) as [|t toks]; [reflexivity|].
    simpl in Hsent. apply andb_true_iff in Hsent as [Ht _].
    unfold in_one_sentence in Ht. rewrite Hnil in Ht. discriminate.
  - apply map_eq_nil in Hnil. rewrite Hnil in Hroots. simpl in Hroots.
    destruct (sents doc); [reflexivity | discriminate].
Qed.

(** X7: on a well-formed document whose tokens all read [word], every record
    returned by [dependency_parse] has [token] and [head] equal to [word],
    whatever the parse. *)
Theorem same_words_all_self_headed {nlp : Language} (w : World)
  (text word : string) (doc : Doc)
  (Hcall : call text = Processed doc)
  (Hwf : well_formed_doc text doc = true)
  (Hw : forall t, In t (Doc_iter doc) -> Token_text t = word) :
  exists d,
    dependency_parse (TextRequest.mk text) (running nlp w)
    = (Return d, running nlp w)
    /\ Forall (fun r => DependencyRecord.token r = word
                        /\ DependencyRecord.head r = word)
              (DependencyResponse.dependencies d)
    /\ filter self_headed (DependencyResponse.dependencies d)
       = DependencyResponse.dependencies d.
Proof.
  rewrite dependency_runs, Hcall. eexists. split; [reflexivity|]. simpl.
  pose proof (same_words_same_text_as_head text _ word Hwf Hw) as Hsame.
  rewrite forallb_forall in Hsame. split.
  - apply Forall_map, Forall_forall. intros t Ht. simpl.
    specialize (Hsame t Ht). unfold same_text_as_head in Hsame.
    apply String.eqb_eq in Hsame. rewrite Hsame. split; exact (Hw t Ht).
  - rewrite self_headed_records. f_equal.
    apply forallb_filter_id, forallb_forall. exact Hsame.
Qed.

(** X8: over the five routes a request is answered with an [HTTPException]
    exactly when it is a [POST /similarity] whose [texts] is not of length 2,
    and it is then the 400 of [text_similarity]; any other exception in a
    response is one the pipeline raised on a text of the request. *)
Theorem route_error_iff {nlp : Language} (w : World) (req : Request) :
  (forall status detail,
     fst (route req (running nlp w)) = Raise (HTTPException status detail)
     <-> status = 400%Z /\ detail = similarity_detail
         /\ exists body,
              req = POST_similarity body
              /\ length (TextsRequest.texts body) <> 2)
  /\ (forall e,
        fst (route req (running nlp w)) = Raise e ->
        e = HTTPException 400 similarity_detail
        \/ exists cls msg,
             e = EngineError cls msg /\ engine_fails_on nlp req cls msg).
Proof.
  destruct req as [[text]|[text]|[texts]|[text]|[text]]; simpl; unfold bind, ret.
  - rewrite ner_runs. destruct (call text) eqn:Hc; simpl; split;
      try (intros status detail; split;
           [discriminate | intros (_ & _ & b & Hb & _); discriminate]);
      try discriminate.
    intros e He. injection He as <-. right. eauto.
  - rewrite pos_runs. destruct (call text) eqn:Hc; simpl; split;
      try (intros status detail; split;
           [discriminate | intros (_ & _ & b & Hb & _); discriminate]);
      try discriminate.
    intros e He. injection He as <-. right. eauto.
  - destruct (Nat.eq_dec (length texts) 2) as [Heq|Hne].
    + destruct (two_texts texts Heq) as (a & b & ->).
      rewrite similarity_runs.
      destruct (call a) as [d1|cls msg] eqn:Ha;
        [destruct (call b) as [d2|cls msg] eqn:Hb|]; simpl; split;
        try (intros status detail; split;
             [discriminate
             | intros (_ & _ & body & Hbody & Hlen);
               injection Hbody as <-; simpl in Hlen; lia]);
        try discriminate;
        intros e He; injection He as <-; right;
        exists cls, msg; (split; [reflexivity|]).
      * exists b. split; [right; left; reflexivity | exact Hb].
      * exists a. split; [left; reflexivity | exact Ha].
    + rewrite (similarity_refuses _ _ Hne). simpl. split.
      * intros status detail. split.
        -- intros H. injection H as <- <-.
           repeat split. exists (TextsRequest.mk texts). split; [reflexivity|].
           exact Hne.
        -- intros (-> & -> & _). reflexivity.
      * intros e He. injection He as <-. left. reflexivity.
  - rewrite analysis_runs. destruct (call text) eqn:Hc; simpl; split;
      try (intros status detail; split;
           [discriminate | intros (_ & _ & b & Hb & _); discriminate]);
      try discriminate.
    intros e He. injection He as <-. right. eauto.
  - rewrite dependency_runs. destruct (call text) eqn:Hc; simpl; split;
      try (intros status detail; split;
           [discriminate | intros (_ & _ & b & Hb & _); discriminate]);
      try discriminate.
    intros e He. injection He as <-. right. eauto.
Qed.

(** X9: on a well-formed document every [Entity] of the [/ner] response lies
    inside the input: [0 <= start <= end <= len(text)], and its text is a
    contiguous substring of the input. *)
Theorem ner_entities_inside_text {nlp : Language} (w : World)
  (text : string) (doc : Doc)
  (Hcall : call text = Processed doc)
  (Hwf : well_formed_doc text doc = true) :
  exists resp,
    named_entity_recognition (TextRequest.mk text) (running nlp w)
    = (Return resp, running nlp w)
    /\ Forall (fun e =>
                 (0 <= Entity.start e <= Entity.end_ e)%Z
                 /\ (Entity.end_ e <= len text)%Z
                 /\ contiguous_substring (Entity.text e) text)
              (NERResponse.entities resp).
Proof.
  rewrite ner_runs, Hcall. eexists. split; [reflexivity|]. simpl.
  apply well_formed_doc_parts in Hwf as (_ & Hanch & Hord & Hsp & _).
  rewrite !forallb_app in Hsp. apply andb_true_iff in Hsp as [Hents _].
  rewrite forallb_forall in Hents.
  apply Forall_map, Forall_forall. intros s Hs. simpl.
  destruct (span_within_text text _ s Hanch Hord (Hents s Hs))
    as (Hse & Hend & Hsl).
  repeat split; try lia. rewrite <- Hsl. now apply slice_occurs.
Qed.


(** ** The properties at the table-driven pipeline *)

(** C1, the claim as stated, fails at two texts of which the first has
    1000001 characters: the list has length 2 and the handler ends in the
    pipeline's [ValueError], not in a [SimilarityResponse]. *)
Lemma similarity_of_long_text_raises :
  length [Table.long_text; "a"] = 2
  /\ fst (text_similarity (TextsRequest.mk [Table.long_text; "a"])
                          (running Table.en Table.ready_world))
     = Raise (EngineError "ValueError" Table.too_long)
  /\ ~ (exists r : SimilarityResponse.t,
          fst (text_similarity (TextsRequest.mk [Table.long_text; "a"])
                               (running Table.en Table.ready_world))
          = Return r).
Proof.
  rewrite similarity_runs, call_long_text. simpl.
  repeat split. intros [r Hr]. discriminate.
Qed.

(** C1, as amended, at two identical texts and at one text. *)
Lemma text_similarity_identical_texts :
  (exists x : float,
     fst (text_similarity (TextsRequest.mk ["police"; "police"])
                          (running Table.en Table.ready_world))
     = Return (SimilarityResponse.mk x))
  /\ (fst (text_similarity (TextsRequest.mk ["police"])
                           (running Table.en Table.ready_world))
      = Raise (HTTPException 400
           "Exactly two texts must be provided for similarity comparison")).
Proof.
  split.
  - apply (text_similarity_bad_request_iff (nlp := Table.en) Table.ready_world
             (TextsRequest.mk ["police"; "police"]))
      with (a := "police") (doc := Table.blank "police"); reflexivity.
  - apply (text_similarity_bad_request_iff (nlp := Table.en) Table.ready_world
             (TextsRequest.mk ["police"])).
    simpl. lia.
Defined.





(** C6, the claim as stated, fails at "police police police": the document
    is well-formed and has one sentence, and all three records have a [head]
    equal to their [token]. *)
Lemma police_three_self_headed_records :
  @call Table.en Table.police_text = Processed Table.police_doc
  /\ well_formed_doc (nlp := Table.en) Table.police_text Table.police_doc = true
  /\ length (@sents Table.en Table.police_doc) = 1
  /\ exists resp,
       dependency_parse (TextRequest.mk Table.police_text)
                        (running Table.en Table.ready_world)
       = (Return resp, running Table.en Table.ready_world)
       /\ length (filter self_headed (DependencyResponse.dependencies resp)) = 3
       /\ ~ one_self_headed_record resp.
Proof.
  split; [reflexivity|]. split; [reflexivity|]. split; [reflexivity|].
  rewrite dependency_runs, call_police_text.
  eexists. split; [reflexivity|]. split; [reflexivity|].
  unfold one_self_headed_record. simpl. discriminate.
Qed.

(** C6, as amended, at the Apple sentence: one record, that of "founded". *)
Lemma dependency_parse_apple_sentence :
  @call Table.en Table.apple_text = Processed Table.apple_doc
  /\ well_formed_doc (nlp := Table.en) Table.apple_text Table.apple_doc = true
  /\ length (@sents Table.en Table.apple_doc) = 1
  /\ exists resp,
       dependency_parse (TextRequest.mk Table.apple_text)
                        (running Table.en Table.ready_world)
       = (Return resp, running Table.en Table.ready_world)
       /\ one_self_headed_record resp.
Proof.
  split; [reflexivity|]. split; [reflexivity|]. split; [reflexivity|].
  destruct (dependency_parse_self_headed_count (nlp := Table.en)
              Table.ready_world Table.apple_text Table.apple_doc
              call_apple_text eq_refl eq_refl)
    as (resp & Hret & Hcount & _ & _).
  exists resp. split; [exact Hret|].
  unfold one_self_headed_record. rewrite Hcount. reflexivity.
Defined.

(** C7 at a site without the model, and at one with it. *)
Lemma startup_without_and_with_model :
  (exists w',
     run Table.bare_world [POST_ner (TextRequest.mk Table.apple_text)]
     = Crashed (RuntimeError model_not_found) w'
     /\ load_calls w' = [model_name])
  /\ (exists resps w',
        run Table.ready_world
            [POST_similarity (TextsRequest.mk []);
             POST_ner (TextRequest.mk Table.apple_text)]
        = Served resps (Globals.mk Table.en, w')
        /\ load_calls w' = [model_name]
        /\ length resps = 2).
Proof.
  split.
  - apply (model_loaded_once_at_startup Table.bare_world
             [POST_ner (TextRequest.mk Table.apple_text)]).
    reflexivity.
  - destruct (model_loaded_once_at_startup Table.ready_world
                [POST_similarity (TextsRequest.mk []);
                 POST_ner (TextRequest.mk Table.apple_text)]) as [_ Hready].
    destruct (Hready Table.en eq_refl) as (resps & w' & Hrun & Hload & Hlen & _).
    exists resps, w'. repeat split; assumption.
Defined.

(** C9 at the Apple sentence. *)
Lemma token_sequences_of_apple :
  @call Table.en Table.apple_text = Processed Table.apple_doc
  /\ exists p a d,
       parts_of_speech (TextRequest.mk Table.apple_text)
                       (running Table.en Table.ready_world)
       = (Return p, running Table.en Table.ready_world)
       /\ basic_analysis (TextRequest.mk Table.apple_text)
                         (running Table.en Table.ready_world)
          = (Return a, running Table.en Table.ready_world)
       /\ dependency_parse (TextRequest.mk Table.apple_text)
                           (running Table.en Table.ready_world)
          = (Return d, running Table.en Table.ready_world)
       /\ length (Analysis.tokens a) = 6
       /\ map Token.text (POSResponse.tokens p) = Analysis.tokens a
       /\ map DependencyRecord.token (DependencyResponse.dependencies d)
          = Analysis.tokens a.
Proof.
  split; [reflexivity|].
  destruct (token_sequences_agree (nlp := Table.en) Table.ready_world
              Table.apple_text) as [Hdoc _].
  destruct (Hdoc Table.apple_doc call_apple_text)
    as (p & a & d & Hp & Ha & Hd & _ & Hlen & _ & _ & Hpa & Hda & _).
  exists p, a, d. repeat split; assumption.
Defined.

(** C10, the claim as stated, fails at a text of 1000001 characters: each of
    the four single-text handlers ends in the pipeline's [ValueError] and
    returns no response. *)
Lemma single_text_handlers_raise_on_long_text :
  fst (named_entity_recognition (TextRequest.mk Table.long_text)
                                (running Table.en Table.ready_world))
  = Raise (EngineError "ValueError" Table.too_long)
  /\ fst (parts_of_speech (TextRequest.mk Table.long_text)
                          (running Table.en Table.ready_world))
     = Raise (EngineError "ValueError" Table.too_long)
  /\ fst (basic_analysis (TextRequest.mk Table.long_text)
                         (running Table.en Table.ready_world))
     = Raise (EngineError "ValueError" Table.too_long)
  /\ fst (dependency_parse (TextRequest.mk Table.long_text)
                           (running Table.en Table.ready_world))
     = Raise (EngineError "ValueError" Table.too_long)
  /\ ~ (exists r : Analysis.t,
          fst (basic_analysis (TextRequest.mk Table.long_text)
                              (running Table.en Table.ready_world))
          = Return r).
Proof.
  rewrite ner_runs, pos_runs, analysis_runs, dependency_runs, call_long_text.
  simpl. repeat split. intros [r Hr]. discriminate.
Qed.

(** C10, as amended, at the Apple sentence. *)
Lemma single_text_handlers_return_on_apple :
  @call Table.en Table.apple_text = Processed Table.apple_doc
  /\ (exists r, named_entity_recognition (TextRequest.mk Table.apple_text)
                                         (running Table.en Table.ready_world)
                = (Return r, running Table.en Table.ready_world))
  /\ (exists r, dependency_parse (TextRequest.mk Table.apple_text)
                                 (running Table.en Table.ready_world)
                = (Return r, running Table.en Table.ready_world)).
Proof.
  split; [reflexivity|].
  destruct (single_text_handlers_total (nlp := Table.en) Table.ready_world
              Table.apple_text) as [Hdoc _].
  destruct (Hdoc Table.apple_doc call_apple_text) as (Hner & _ & _ & Hdep).
  split; assumption.
Defined.

(** X1 at the Apple sentence. *)
Lemma apple_tokens_in_text_order :
  @call Table.en Table.apple_text = Processed Table.apple_doc
  /\ well_formed_doc (nlp := Table.en) Table.apple_text Table.apple_doc = true
  /\ exists a,
       basic_analysis (TextRequest.mk Table.apple_text)
                      (running Table.en Table.ready_world)
       = (Return a, running Table.en Table.ready_world)
       /\ Analysis.tokens a = ["Apple"; "was"; "founded"; "in"; "Cupertino"; "."]
       /\ occur_in_order (Analysis.tokens a) Table.apple_text.
Proof.
  split; [reflexivity|]. split; [reflexivity|].
  destruct (tokens_occur_in_text_order (nlp := Table.en) Table.ready_world
              Table.apple_text Table.apple_doc call_apple_text eq_refl)
    as (p & a & _ & Ha & _ & Hocc).
  exists a. split; [exact Ha|]. split; [|exact Hocc].
  rewrite analysis_runs, call_apple_text in Ha. injection Ha as <-.
  reflexivity.
Defined.

(** X2 at the Apple sentence: 6 tokens of 27 characters in a text of 31. *)
Lemma apple_tokens_fit :
  @call Table.en Table.apple_text = Processed Table.apple_doc
  /\ well_formed_doc (nlp := Table.en) Table.apple_text Table.apple_doc = true
  /\ exists p,
       parts_of_speech (TextRequest.mk Table.apple_text)
                       (running Table.en Table.ready_world)
       = (Return p, running Table.en Table.ready_world)
       /\ (Z.of_nat (length (POSResponse.tokens p)) <= 31)%Z
       /\ (total_len (map Token.text (POSResponse.tokens p)) <= 31)%Z.
Proof.
  split; [reflexivity|]. split; [reflexivity|].
  exact (tokens_fit_in_text (nlp := Table.en) Table.ready_world
           Table.apple_text Table.apple_doc call_apple_text eq_refl).
Defined.

(** X3 at the Apple sentence. *)
Lemma apple_entities_nonempty :
  @call Table.en Table.apple_text = Processed Table.apple_doc
  /\ well_formed_doc (nlp := Table.en) Table.apple_text Table.apple_doc = true
  /\ exists resp,
       named_entity_recognition (TextRequest.mk Table.apple_text)
                                (running Table.en Table.ready_world)
       = (Return resp, running Table.en Table.ready_world)
       /\ Forall (fun e =>
                    (Entity.start e < Entity.end_ e)%Z
                    /\ len (Entity.text e)
                       = (Entity.end_ e - Entity.start e)%Z
                    /\ Entity.text e <> "")
                 (NERResponse.entities resp).
Proof.
  split; [reflexivity|]. split; [reflexivity|].
  exact (ner_entities_nonempty (nlp := Table.en) Table.ready_world
           Table.apple_text Table.apple_doc call_apple_text eq_refl).
Defined.

(** X4 at the Apple sentence. *)
Lemma apple_spans_are_substrings :
  @call Table.en Table.apple_text = Processed Table.apple_doc
  /\ well_formed_doc (nlp := Table.en) Table.apple_text Table.apple_doc = true
  /\ (forall s, In s (@sents Table.en Table.apple_doc) ->
        @Span_str Table.en s = @Span_text Table.en s)
  /\ exists a,
       basic_analysis (TextRequest.mk Table.apple_text)
                      (running Table.en Table.ready_world)
       = (Return a, running Table.en Table.ready_world)
       /\ Forall (fun p => contiguous_substring p Table.apple_text)
                 (Analysis.noun_phrases a)
       /\ Forall (fun s => contiguous_substring s Table.apple_text)
                 (Analysis.sentences a).
Proof.
  split; [reflexivity|]. split; [reflexivity|]. split; [reflexivity|].
  exact (basic_analysis_spans_are_substrings (nlp := Table.en)
           Table.ready_world Table.apple_text Table.apple_doc
           call_apple_text eq_refl (fun s _ => eq_refl)).
Defined.

(** X5 at the Apple sentence. *)
Lemma apple_heads_are_tokens :
  @call Table.en Table.apple_text = Processed Table.apple_doc
  /\ well_formed_doc (nlp := Table.en) Table.apple_text Table.apple_doc = true
  /\ exists d,
       dependency_parse (TextRequest.mk Table.apple_text)
                        (running Table.en Table.ready_world)
       = (Return d, running Table.en Table.ready_world)
       /\ Forall (fun r =>
                    In (DependencyRecord.head r)
                       (map DependencyRecord.token
                            (DependencyResponse.dependencies d)))
                 (DependencyResponse.dependencies d).
Proof.
  split; [reflexivity|]. split; [reflexivity|].
  exact (dependency_heads_are_tokens (nlp := Table.en) Table.ready_world
           Table.apple_text Table.apple_doc call_apple_text eq_refl).
Defined.

(** X6 at "police police police": one sentence and two tokens that read like
    their head, three records in all. *)
Lemma police_records_and_sentences :
  @call Table.en Table.police_text = Processed Table.police_doc
  /\ well_formed_doc (nlp := Table.en) Table.police_text Table.police_doc = true
  /\ exists d a,
       dependency_parse (TextRequest.mk Table.police_text)
                        (running Table.en Table.ready_world)
       = (Return d, running Table.en Table.ready_world)
       /\ basic_analysis (TextRequest.mk Table.police_text)
                         (running Table.en Table.ready_world)
          = (Return a, running Table.en Table.ready_world)
       /\ length (Analysis.sentences a) = 1
       /\ length (filter self_headed (DependencyResponse.dependencies d))
          = 1 + 2.
Proof.
  split; [reflexivity|]. split; [reflexivity|].
  destruct (self_headed_records_and_sentences (nlp := Table.en)
              Table.ready_world Table.police_text Table.police_doc
              call_police_text eq_refl)
    as (d & a & Hd & Ha & Hcount & _).
  exists d, a. split; [exact Hd|]. split; [exact Ha|].
  rewrite Hcount.
  rewrite analysis_runs, call_police_text in Ha. injection Ha as <-.
  split; reflexivity.
Defined.

(** X7 at "police police police". *)
Lemma police_all_self_headed :
  @call Table.en Table.police_text = Processed Table.police_doc
  /\ well_formed_doc (nlp := Table.en) Table.police_text Table.police_doc = true
  /\ (forall t, In t (@Doc_iter Table.en Table.police_doc) ->
        @Token_text Table.en t = "police")
  /\ exists d,
       dependency_parse (TextRequest.mk Table.police_text)
                        (running Table.en Table.ready_world)
       = (Return d, running Table.en Table.ready_world)
       /\ filter self_headed (DependencyResponse.dependencies d)
          = DependencyResponse.dependencies d.
Proof.
  assert (Hw : forall t,
             In t (@Doc_iter Table.en Table.police_doc) ->
             @Token_text Table.en t = "police").
  { intros t Ht. simpl in Ht.
    destruct Ht as [<-|[<-|[<-|[]]]]; reflexivity. }
  split; [reflexivity|]. split; [reflexivity|]. split; [exact Hw|].
  destruct (same_words_all_self_headed (nlp := Table.en) Table.ready_world
              Table.police_text "police" Table.police_doc
              call_police_text eq_refl Hw) as (d & Hd & _ & Hall).
  exists d. split; assumption.
Defined.

(** X9 at the Apple sentence. *)
Lemma apple_entities_inside_text :
  @call Table.en Table.apple_text = Processed Table.apple_doc
  /\ well_formed_doc (nlp := Table.en) Table.apple_text Table.apple_doc = true
  /\ exists resp,
       named_entity_recognition (TextRequest.mk Table.apple_text)
                                (running Table.en Table.ready_world)
       = (Return resp, running Table.en Table.ready_world)
       /\ Forall (fun e =>
                    (0 <= Entity.start e <= Entity.end_ e)%Z
                    /\ (Entity.end_ e <= len Table.apple_text)%Z
                    /\ contiguous_substring (Entity.text e) Table.apple_text)
                 (NERResponse.entities resp).
Proof.
  split; [reflexivity|]. split; [reflexivity|].
  exact (ner_entities_inside_text (nlp := Table.en) Table.ready_world
           Table.apple_text Table.apple_doc call_apple_text eq_refl).
Defined.

